(** * HELICS value-federate interface layer: the [Input] object

    A shallow embedding of [src/helics/application_api/Inputs.hpp]
    (classes [helics::Input] and [helics::InputT<X>]).

    The header uses helpers whose definitions live in other translation
    units ([HelicsPrimaryTypes], [helicsTypes], [ValueFederate], the units
    library, [Inputs.cpp]).  They are gathered in the interface
    [ValueHelpers] below and every statement about the header is proved
    for all implementations of that interface. *)

From Stdlib Require Import ZArith List Ascii String Bool Lia Eqdep_dec.
From Stdlib Require Import DecimalString.
From Stdlib Require Import SpecFloat.
Import ListNotations.

Set Implicit Arguments.

(** ** IEEE-754 binary64, the C++ [double] *)

Definition double : Type := spec_float.

Module Double.

Definition prec : Z := 53.
Definition emax : Z := 1024.

(** the literal [0.0] *)
Definition zero : double := S754_zero false.

(** [a < b] and [a <= b] of C++; both are false when an operand is NaN *)
Definition ltb (a b : double) : bool := SFltb a b.
Definition leb (a b : double) : bool := SFleb a b.

Definition is_nan (a : double) : bool :=
  match a with S754_nan => true | _ => false end.

Definition of_Z (z : Z) : double := binary_normalize prec emax z 0 false.
Definition opp (a : double) : double := SFopp a.
Definition abs (a : double) : double := SFabs a.
Definition add (a b : double) : double := SFadd prec emax a b.
Definition sub (a b : double) : double := SFsub prec emax a b.
Definition mul (a b : double) : double := SFmul prec emax a b.
Definition div (a b : double) : double := SFdiv prec emax a b.

(** the literal [-1.0], default of [Input::delta] *)
Definition minus_one : double := opp (of_Z 1).

End Double.

(** ** Primary value types *)

(** [helics::Time]: a count of nanoseconds. *)
Definition Time : Type := Z.

(** [helics::NamedPoint] *)
Record NamedPoint : Type := mkNamedPoint {
  name : string;
  value : double
}.

(** The nine primary types; the order is that of the alternatives of the
    [value_callback] variant (Inputs.hpp:66-74), which the source says
    matches [defV]. *)
Inductive primary : Type :=
  | PDouble | PInt | PString | PComplex | PVector | PComplexVector
  | PNamedPoint | PBool | PTime.

Definition primary_eq_dec (a b : primary) : {a = b} + {a <> b}.
Proof. decide equality. Defined.

(** The C++ type denoted by each primary type. *)
Definition ctype (X : primary) : Type :=
  match X with
  | PDouble => double
  | PInt => Z
  | PString => string
  | PComplex => (double * double)%type
  | PVector => list double
  | PComplexVector => list (double * double)
  | PNamedPoint => NamedPoint
  | PBool => bool
  | PTime => Time
  end.

(** Modelled from the spec: [defV] (HelicsPrimaryTypes.hpp is not under
    src/) is the tagged value of section 3: exactly one primary variant
    and its payload.  The tag matches the payload by construction. *)
Definition defV : Type := { X : primary & ctype X }.

Definition mkV (X : primary) (x : ctype X) : defV := existT ctype X x.

(** [val.index()] *)
Definition index (v : defV) : primary := projT1 v.

(** [std::get<X>(val)]: [None] stands for [std::bad_variant_access]. *)
Definition std_get (X : primary) (v : defV) : option (ctype X) :=
  match primary_eq_dec (index v) X with
  | left e => Some (eq_rect (index v) ctype (projT2 v) X e)
  | right _ => None
  end.

(** [helics::data_type] (helicsTypes.hpp); the names are those of the
    type strings of section 6 of the specification. *)
Inductive data_type : Type :=
  | helics_string | helics_double | helics_int | helics_complex
  | helics_vector | helics_complex_vector | helics_named_point
  | helics_bool | helics_time | helics_custom | helics_any
  | helics_unknown.

Definition data_type_eq_dec (a b : data_type) : {a = b} + {a <> b}.
Proof. decide equality. Defined.

Definition data_type_eqb (a b : data_type) : bool :=
  if data_type_eq_dec a b then true else false.

(** [helicsType<X>()] *)
Definition helicsType (X : primary) : data_type :=
  match X with
  | PDouble => helics_double
  | PInt => helics_int
  | PString => helics_string
  | PComplex => helics_complex
  | PVector => helics_vector
  | PComplexVector => helics_complex_vector
  | PNamedPoint => helics_named_point
  | PBool => helics_bool
  | PTime => helics_time
  end.

(** Inputs.hpp:24-34 *)
Inductive multi_input_mode : Type :=
  | no_op | and_operation | or_operation | sum_operation | diff_operation
  | max_operation | min_operation | average_operation | vectorize_operation.

Definition is_no_op (m : multi_input_mode) : bool :=
  match m with no_op => true | _ => false end.

(** A [std::function] object held by the application is referred to by
    an identifier; what running it does is given by [Application] below. *)
Definition cbid : Type := nat.

(** ** Helpers declared outside the header *)

Class ValueHelpers : Type := {
  (** [helics::data_view], a raw publication buffer *)
  data_view : Type;
  (** [units::precise_unit] *)
  precise_unit : Type;
  (** [doubleExtractAndConvert(dv, inputUnits, outputUnits)] *)
  doubleExtractAndConvert :
    data_view -> option precise_unit -> option precise_unit -> double;
  (** [integerExtractAndConvert(store, dv, inputUnits, outputUnits)];
      the result is what is left in [store] *)
  integerExtractAndConvert :
    data_view -> option precise_unit -> option precise_unit -> defV;
  (** [valueExtract(const defV&, X&)] *)
  valueExtract : defV -> forall X : primary, ctype X;
  (** [valueExtract(const data_view&, data_type, X&)] *)
  valueExtractRaw : data_view -> data_type -> forall X : primary, ctype X;
  (** [valueExtract(const data_view&, data_type, defV&)] *)
  valueExtractRawV : data_view -> data_type -> defV;
  (** [changeDetected(const defV& prev, const X& val, double delta)] *)
  changeDetected : defV -> forall X : primary, ctype X -> double -> bool;
  (** [make_valid(X)] followed by the assignment to a [defV] *)
  make_valid : forall X : primary, ctype X -> defV;
  (** [valueConvert(defV&, data_type)]; the result is the converted value *)
  valueConvert : defV -> data_type -> defV;
  (** whether [fed->getValueRaw] marks the publication as read, so that
      [fed->isUpdated] answers false afterwards (ValueFederate.cpp) *)
  getValueRaw_consumes : bool
}.

Section InputObject.

Context {VH : ValueHelpers}.

(** ** The [Input] object (Inputs.hpp:37-75) *)

Record Input : Type := mkInput {
  handle : Z;
  referenceIndex : Z;
  targetType : data_type;
  injectionType : data_type;
  changeDetectionEnabled : bool;
  hasUpdate : bool;
  disableAssign : bool;
  useThreshold : bool;
  multiUnits : bool;
  inputVectorOp : multi_input_mode;
  prevInputCount : Z;
  customTypeHash : N;
  lastValue : defV;
  outputUnits : option precise_unit;
  inputUnits : option precise_unit;
  sourceTypes : list (data_type * option precise_unit);
  delta : double;
  threshold : double;
  actualName : string;
  (** the alternative held by the variant and the function in it, if any *)
  value_callback : primary * option cbid
}.

(** A freshly constructed input with handle [h]: the member initialisers
    of lines 42-64. *)
Definition default_Input (h : Z) : Input :=
  {| handle := h; referenceIndex := -1;
     targetType := helics_unknown; injectionType := helics_unknown;
     changeDetectionEnabled := false; hasUpdate := false;
     disableAssign := false; useThreshold := false; multiUnits := false;
     inputVectorOp := no_op; prevInputCount := 0; customTypeHash := 0%N;
     lastValue := mkV PDouble Double.zero;
     outputUnits := None; inputUnits := None; sourceTypes := [];
     delta := Double.minus_one; threshold := Double.zero;
     actualName := EmptyString;
     value_callback := (PDouble, None) |}.

Definition set_changeDetectionEnabled (b : bool) (i : Input) : Input :=
  mkInput (handle i) (referenceIndex i) (targetType i) (injectionType i)
    b (hasUpdate i) (disableAssign i) (useThreshold i) (multiUnits i)
    (inputVectorOp i) (prevInputCount i) (customTypeHash i) (lastValue i)
    (outputUnits i) (inputUnits i) (sourceTypes i) (delta i) (threshold i)
    (actualName i) (value_callback i).

Definition set_hasUpdate (b : bool) (i : Input) : Input :=
  mkInput (handle i) (referenceIndex i) (targetType i) (injectionType i)
    (changeDetectionEnabled i) b (disableAssign i) (useThreshold i)
    (multiUnits i) (inputVectorOp i) (prevInputCount i) (customTypeHash i)
    (lastValue i) (outputUnits i) (inputUnits i) (sourceTypes i) (delta i)
    (threshold i) (actualName i) (value_callback i).

Definition set_lastValue (v : defV) (i : Input) : Input :=
  mkInput (handle i) (referenceIndex i) (targetType i) (injectionType i)
    (changeDetectionEnabled i) (hasUpdate i) (disableAssign i)
    (useThreshold i) (multiUnits i) (inputVectorOp i) (prevInputCount i)
    (customTypeHash i) v (outputUnits i) (inputUnits i) (sourceTypes i)
    (delta i) (threshold i) (actualName i) (value_callback i).

Definition set_delta (d : double) (i : Input) : Input :=
  mkInput (handle i) (referenceIndex i) (targetType i) (injectionType i)
    (changeDetectionEnabled i) (hasUpdate i) (disableAssign i)
    (useThreshold i) (multiUnits i) (inputVectorOp i) (prevInputCount i)
    (customTypeHash i) (lastValue i) (outputUnits i) (inputUnits i)
    (sourceTypes i) d (threshold i) (actualName i) (value_callback i).

Definition set_source (t : data_type) (u : option precise_unit) (i : Input)
  : Input :=
  mkInput (handle i) (referenceIndex i) (targetType i) t
    (changeDetectionEnabled i) (hasUpdate i) (disableAssign i)
    (useThreshold i) (multiUnits i) (inputVectorOp i) (prevInputCount i)
    (customTypeHash i) (lastValue i) (outputUnits i) u (sourceTypes i)
    (delta i) (threshold i) (actualName i) (value_callback i).

Definition set_value_callback (c : primary * option cbid) (i : Input)
  : Input :=
  mkInput (handle i) (referenceIndex i) (targetType i) (injectionType i)
    (changeDetectionEnabled i) (hasUpdate i) (disableAssign i)
    (useThreshold i) (multiUnits i) (inputVectorOp i) (prevInputCount i)
    (customTypeHash i) (lastValue i) (outputUnits i) (inputUnits i)
    (sourceTypes i) (delta i) (threshold i) (actualName i) c.

(** ** Change-detection settings (Inputs.hpp:319-334) *)

(** [Input::setMinimumChange] *)
Definition setMinimumChange (deltaV : double) (i : Input) : Input :=
  (* this first check enables change detection if it was disabled via
     negative delta *)
  let i1 := if Double.ltb (delta i) Double.zero
            then set_changeDetectionEnabled true i else i in
  let i2 := set_delta deltaV i1 in
  (* the second checks if we should disable from negative delta *)
  if Double.ltb (delta i2) Double.zero
  then set_changeDetectionEnabled false i2 else i2.

(** [Input::enableChangeDetection] *)
Definition enableChangeDetection (enabled : bool) (i : Input) : Input :=
  set_changeDetectionEnabled enabled i.

(** Calls of the two setters, and their execution in sequence. *)
Inductive setting : Type :=
  | SetMinimumChange (deltaV : double)
  | EnableChangeDetection (enabled : bool).

Definition apply_setting (c : setting) (i : Input) : Input :=
  match c with
  | SetMinimumChange d => setMinimumChange d i
  | EnableChangeDetection b => enableChangeDetection b i
  end.

Definition apply_settings (cs : list setting) (i : Input) : Input :=
  fold_left (fun acc c => apply_setting c acc) cs i.

(** [guarded cs i]: in the run of [cs] from [i], no call
    [enableChangeDetection(true)] is made while the stored delta is
    negative. *)
Fixpoint guarded (cs : list setting) (i : Input) : bool :=
  match cs with
  | [] => true
  | c :: r =>
      match c with
      | EnableChangeDetection true => negb (Double.ltb (delta i) Double.zero)
      | _ => true
      end && guarded r (apply_setting c i)
  end.


(** ** The federate as seen from one input *)

(** The two closures that the header hands to
    [fed->setInputNotificationCallback]: the one built by
    [registerNotificationCallback] (lines 196-200), which captures the
    application's callback, and the one built by
    [setInputNotificationCallback] (lines 281-283 and 522-524), which
    captures only [this]. *)
Inductive handler : Type :=
  | NotificationLambda (callback : cbid)
  | ValueLambda.

(** Modelled from the spec: the part of [ValueFederate] (not under src/)
    that concerns one input, after section 6: [is-updated(handle)],
    [get-raw(handle)], [get-injection-type(handle)],
    [get-injection-units(handle)], [get-last-update-time(handle)] and the
    callback given to [set-input-notification(handle, callback)]. *)
Record Fed : Type := mkFed {
  fed_isUpdated : bool;
  fed_raw : data_view;
  fed_injectionType : data_type;
  fed_injectionUnits : option precise_unit;
  fed_lastUpdateTime : Time;
  fed_notification : option handler
}.

(** Modelled from the spec: [fed->getValueRaw] returns the raw
    buffer of the input, which is frozen for the cycle (section 5). *)
Definition getValueRaw (f : Fed) : data_view * Fed :=
  (fed_raw f,
   if getValueRaw_consumes
   then mkFed false (fed_raw f) (fed_injectionType f)
          (fed_injectionUnits f) (fed_lastUpdateTime f) (fed_notification f)
   else f).

(** Modelled from the spec: [fed->setInputNotificationCallback]
    is [set-input-notification(handle, callback)] of section 6: it sets
    the callback of the handle. *)
Definition fed_setInputNotificationCallback (h : handler) (f : Fed) : Fed :=
  mkFed (fed_isUpdated f) (fed_raw f) (fed_injectionType f)
    (fed_injectionUnits f) (fed_lastUpdateTime f) (Some h).

(** An input together with the federate it points to. *)
Record Sys : Type := mkSys {
  input : Input;
  fed : Fed
}.

(** Modelled from the spec: [Input::loadSourceInformation] (Inputs.cpp is
    not under src/) reads the injection type and the injection units from
    the federate (sections 4.6 and 9, lazy source info). *)
Definition loadSourceInformation (f : Fed) (i : Input) : Input :=
  set_source (fed_injectionType f) (fed_injectionUnits f) i.

(** Lines 545-547 of [getValue_impl] and 599-601 of [getValueRef]:
    [if (injectionType == data_type::helics_unknown) loadSourceInformation();] *)
Definition ensureSource (f : Fed) (i : Input) : Input :=
  if data_type_eqb (injectionType i) helics_unknown
  then loadSourceInformation f i else i.

(** ** Reading the value (Inputs.hpp:448-451, 540-627) *)

(** [Input::allowDirectFederateUpdate] *)
Definition allowDirectFederateUpdate (i : Input) : bool :=
  hasUpdate i && negb (changeDetectionEnabled i)
  && is_no_op (inputVectorOp i).

(** The decoding of the raw buffer into an [X], lines 549-558 of
    [getValue_impl], repeated in lines 605-614 of [getValueRef]. *)
Definition extract (X : primary) (dv : data_view) (i : Input) : ctype X :=
  match injectionType i with
  | helics_double =>
      let val := mkV PDouble
                   (doubleExtractAndConvert dv (inputUnits i) (outputUnits i))
      in valueExtract val X
  | helics_int =>
      let val := integerExtractAndConvert dv (inputUnits i) (outputUnits i)
      in valueExtract val X
  | t => valueExtractRaw dv t X
  end.

(** The value decoded from the publication pending in [s]. *)
Definition decoded (X : primary) (s : Sys) : ctype X :=
  extract X (fed_raw (fed s)) (ensureSource (fed s) (input s)).

(** The state that [getValue_impl] leaves when it stores the decoded
    value (lines 561 and 566, then 571). *)
Definition stored_state (X : primary) (s : Sys) : Sys :=
  mkSys (set_hasUpdate false
           (set_lastValue (make_valid X (decoded X s))
              (ensureSource (fed s) (input s))))
        (snd (getValueRaw (fed s))).

(** [Input::getValue_impl(std::integral_constant<int, primaryType>, X& out)]:
    the value left in [out] and the state after the call. *)
Definition getValue_impl (X : primary) (s : Sys) : ctype X * Sys :=
  let i := input s in
  if fed_isUpdated (fed s) || allowDirectFederateUpdate i then
    let (dv, f1) := getValueRaw (fed s) in
    let i1 := ensureSource f1 i in
    let out := extract X dv i1 in
    let (out', i2) :=
      if changeDetectionEnabled i1 then
        if changeDetected (lastValue i1) X out (delta i1)
        then (out, set_lastValue (make_valid X out) i1)
        else (valueExtract (lastValue i1) X, i1)
      else (out, set_lastValue (make_valid X out) i1) in
    (out', mkSys (set_hasUpdate false i2) f1)
  else
    (valueExtract (lastValue i) X, mkSys (set_hasUpdate false i) (fed s)).

(** [Input::getValue<X>()] for a primary [X] *)
Definition getValue (X : primary) (s : Sys) : ctype X * Sys :=
  getValue_impl X s.

(** [getValueRefImpl<X>(defV& val)], lines 574-579: the view returned and
    the value left in [val]. *)
Definition getValueRefImpl_generic (X : primary) (val : defV)
  : option (ctype X) * defV :=
  let val' := valueConvert val (helicsType X) in
  (std_get X val', val').

(** [getValueRefImpl<std::string>(defV& val)], lines 581-590 *)
Definition getValueRefImpl_string (val : defV)
  : option (ctype PString) * defV :=
  (* don't convert a named point to a string *)
  match std_get PNamedPoint val with
  | Some np => (Some (name np), val)
  | None =>
      let val' := valueConvert val helics_string in
      (std_get PString val', val')
  end.

(** Template dispatch: the specialisation is chosen for [std::string]. *)
Definition getValueRefImpl (X : primary) : defV -> option (ctype X) * defV :=
  match X as X0 return defV -> option (ctype X0) * defV with
  | PString => getValueRefImpl_string
  | X0 => getValueRefImpl_generic X0
  end.

(** Lines 597-624 of [Input::getValueRef]: the refresh of [lastValue]
    that precedes the conversion. *)
Definition getValueRef_refresh (X : primary) (s : Sys) : Sys :=
  let i := input s in
  if fed_isUpdated (fed s) || allowDirectFederateUpdate i then
    let (dv, f1) := getValueRaw (fed s) in
    let i1 := ensureSource f1 i in
    let i2 :=
      if changeDetectionEnabled i1 then
        let out := extract X dv i1 in
        if changeDetected (lastValue i1) X out (delta i1)
        then set_lastValue (make_valid X out) i1
        else i1
      else set_lastValue (valueExtractRawV dv (injectionType i1)) i1 in
    mkSys i2 f1
  else s.

(** [Input::getValueRef<X>()]: the view returned ([None] when [std::get]
    throws) and the state after the call. *)
Definition getValueRef (X : primary) (s : Sys) : option (ctype X) * Sys :=
  let s1 := getValueRef_refresh X s in
  let (view, val) := getValueRefImpl X (lastValue (input s1)) in
  (view, mkSys (set_lastValue val (input s1)) (fed s1)).

(** ** Callbacks (Inputs.hpp:193-201, 273-284, 519-537) *)

(** What the application supplies: the effect of running each of its
    function objects, and [Input::isUpdated()] (the non-const overload,
    defined in Inputs.cpp), which may refresh the input. *)
Class Application : Type := {
  Input_isUpdated : Sys -> bool * Sys;
  notify_body : cbid -> Time -> Sys -> Sys;
  value_body : cbid -> forall X : primary, ctype X -> Time -> Sys -> Sys
}.

Context {App : Application}.

(** A record of one invocation of an application callback with its
    arguments. *)
Inductive call : Type :=
  | NotifyCall (callback : cbid) (time : Time)
  | ValueCall (callback : cbid) (val : defV) (time : Time).

(** The system together with the invocations made so far. *)
Record World : Type := mkWorld {
  sys : Sys;
  calls : list call
}.

(** [callback(time)] *)
Definition invoke_notify (cb : cbid) (time : Time) (w : World) : World :=
  mkWorld (notify_body cb time (sys w)) (calls w ++ [NotifyCall cb time]).

(** [value_callback(out, time)] *)
Definition invoke_value (cb : cbid) (X : primary) (out : ctype X)
  (time : Time) (w : World) : World :=
  mkWorld (value_body cb X out time (sys w))
    (calls w ++ [ValueCall cb (mkV X out) time]).

(** [InputT<X>::handleCallback], lines 532-537; [X] is the type of the
    stored callback.  Calling an empty [std::function] throws, which
    leaves the state reached by [getValue]. *)
Definition handleCallback (time : Time) (w : World) : World :=
  let (X, f) := value_callback (input (sys w)) in
  let (out, s1) := getValue X (sys w) in
  match f with
  | Some cb => invoke_value cb X out time (mkWorld s1 (calls w))
  | None => mkWorld s1 (calls w)
  end.

(** The bodies of the two closures. *)
Definition run_handler (h : handler) (time : Time) (w : World) : World :=
  match h with
  | NotificationLambda callback =>
      let (b, s1) := Input_isUpdated (sys w) in
      if b then invoke_notify callback time (mkWorld s1 (calls w))
      else mkWorld s1 (calls w)
  | ValueLambda => handleCallback time w
  end.

(** [Input::registerNotificationCallback] *)
Definition registerNotificationCallback (callback : cbid) (s : Sys) : Sys :=
  mkSys (input s)
    (fed_setInputNotificationCallback (NotificationLambda callback) (fed s)).

(** [Input::setInputNotificationCallback<X>] and
    [InputT<X>::setInputNotificationCallback] *)
Definition setInputNotificationCallback (X : primary) (callback : cbid)
  (s : Sys) : Sys :=
  mkSys (set_value_callback (X, Some callback) (input s))
    (fed_setInputNotificationCallback ValueLambda (fed s)).

(** Modelled from the spec: a dispatch point of the federate, where it
    calls the callback set for the handle with the input and the time
    (section 6, [set-input-notification]). *)
Definition dispatch (time : Time) (w : World) : World :=
  match fed_notification (fed (sys w)) with
  | Some h => run_handler h time w
  | None => w
  end.

(** ** Further operations of the header *)

(** [Input::setDefault<X>] for a primary [X] (lines 287-298, 310-314):
    [setDefault_impl] with type category 0 or 1 assigns
    [lastValue = make_valid(val)]. *)
Definition setDefault (X : primary) (val : ctype X) (i : Input) : Input :=
  set_lastValue (make_valid X val) i.

(** The argument of the last [setMinimumChange] call of a run, [d0] when
    there is none. *)
Fixpoint last_delta (cs : list setting) (d0 : double) : double :=
  match cs with
  | [] => d0
  | SetMinimumChange d :: r => last_delta r d
  | EnableChangeDetection _ :: r => last_delta r d0
  end.

End InputObject.

(** ** A test fixture: one executable implementation of the helpers

    The fixture is used to run the header on concrete inputs.  A raw
    buffer is represented by the tagged value it encodes.  Conversions
    between tagged values follow section 4.1 of the specification, except
    that a floating-point number is not rendered as decimal text and
    decimal text is parsed only as a signed integer. *)

Module Fixture.

(** Modelled from the spec: a unit (the units library is not under src/)
    given by its linear map to a base unit; the bridge of section 4.3
    between two units is then the linear map [y = a x + b]. *)
Record unit_map : Type := mkUnit {
  scale : double;
  offset : double
}.

Definition convert (x : double) (from to : unit_map) : double :=
  Double.div
    (Double.sub (Double.add (Double.mul x (scale from)) (offset from))
                (offset to))
    (scale to).

Definition metre : unit_map := mkUnit (Double.of_Z 1) Double.zero.
Definition kilometre : unit_map := mkUnit (Double.of_Z 1000) Double.zero.

Definition int64_min : Z := - 2 ^ 63.
Definition int64_max : Z := 2 ^ 63 - 1.
Definition saturate (z : Z) : Z := Z.max int64_min (Z.min int64_max z).

(** double to integer: nearest, ties to even, saturating *)
Definition round_half_even (d : double) : Z :=
  match d with
  | S754_finite s m e =>
      let n :=
        if (0 <=? e)%Z then (Zpos m * 2 ^ e)%Z
        else
          let q := (Zpos m / 2 ^ (- e))%Z in
          let r := (Zpos m mod 2 ^ (- e))%Z in
          match (2 * r ?= 2 ^ (- e))%Z with
          | Lt => q
          | Gt => (q + 1)%Z
          | Eq => if Z.even q then q else (q + 1)%Z
          end in
      saturate (if s then (- n)%Z else n)
  | S754_infinity s => if s then int64_min else int64_max
  | _ => 0%Z
  end.

Definition is_zero (d : double) : bool := SFeqb d Double.zero.

Definition lower (c : Ascii.ascii) : Ascii.ascii :=
  let n := Ascii.nat_of_ascii c in
  if ((65 <=? n) && (n <=? 90))%nat then Ascii.ascii_of_nat (n + 32) else c.

Fixpoint lowercase (s : string) : string :=
  match s with
  | EmptyString => EmptyString
  | String c r => String (lower c) (lowercase r)
  end.

Definition isTrueString (s : string) : bool :=
  let l := lowercase s in
  (String.eqb l "true" || String.eqb l "1" || String.eqb l "on")%string.

Fixpoint digits (s : string) (acc : Z) : option Z :=
  match s with
  | EmptyString => Some acc
  | String c r =>
      let n := Ascii.nat_of_ascii c in
      if ((48 <=? n) && (n <=? 57))%nat
      then digits r (10 * acc + Z.of_nat (n - 48))%Z
      else None
  end.

(** decimal text of a signed integer; zero on failure *)
Definition parse_int (s : string) : Z :=
  match s with
  | EmptyString => 0%Z
  | String "-"%char r =>
      match r, digits r 0 with
      | String _ _, Some z => (- z)%Z
      | _, _ => 0%Z
      end
  | _ => match digits s 0 with Some z => z | None => 0%Z end
  end.

Definition asDouble (v : defV) : double :=
  match v with
  | existT _ PDouble d => d
  | existT _ PInt z => Double.of_Z z
  | existT _ PString s => Double.of_Z (parse_int s)
  | existT _ PComplex c => fst c
  | existT _ PVector l => hd Double.zero l
  | existT _ PComplexVector l => fst (hd (Double.zero, Double.zero) l)
  | existT _ PNamedPoint np => value np
  | existT _ PBool b => if b then Double.of_Z 1 else Double.zero
  | existT _ PTime t => Double.div (Double.of_Z t) (Double.of_Z (10 ^ 9))
  end.

Definition asInt (v : defV) : Z :=
  match v with
  | existT _ PInt z => z
  | existT _ PString s => parse_int s
  | existT _ PBool b => if b then 1%Z else 0%Z
  | existT _ PTime t => t
  | _ => round_half_even (asDouble v)
  end.

Definition asString (v : defV) : string :=
  match v with
  | existT _ PString s => s
  | existT _ PNamedPoint np => name np
  | existT _ PInt z => DecimalString.NilZero.string_of_int (Z.to_int z)
  | existT _ PBool b => if b then "1"%string else "0"%string
  | _ => EmptyString
  end.

Definition asComplex (v : defV) : double * double :=
  match v with
  | existT _ PComplex c => c
  | existT _ PComplexVector l => hd (Double.zero, Double.zero) l
  | _ => (asDouble v, Double.zero)
  end.

Definition asVector (v : defV) : list double :=
  match v with
  | existT _ PVector l => l
  | existT _ PComplexVector l => map fst l
  | _ => [asDouble v]
  end.

Definition asComplexVector (v : defV) : list (double * double) :=
  match v with
  | existT _ PComplexVector l => l
  | existT _ PVector l => map (fun d => (d, Double.zero)) l
  | _ => [asComplex v]
  end.

Definition asNamedPoint (v : defV) : NamedPoint :=
  match v with
  | existT _ PNamedPoint np => np
  | existT _ PString s => mkNamedPoint s S754_nan
  | _ => mkNamedPoint "value" (asDouble v)
  end.

Definition asBool (v : defV) : bool :=
  match v with
  | existT _ PBool b => b
  | existT _ PString s => isTrueString s
  | _ => negb (is_zero (asDouble v))
  end.

Definition asTime (v : defV) : Time :=
  match v with
  | existT _ PTime t => t
  | existT _ PInt z => z
  | _ => round_half_even
           (Double.mul (asDouble v) (Double.of_Z (10 ^ 9)))
  end.

(** [valueExtract(const defV&, X&)] *)
Definition extractAs (v : defV) (X : primary) : ctype X :=
  match X with
  | PDouble => asDouble v
  | PInt => asInt v
  | PString => asString v
  | PComplex => asComplex v
  | PVector => asVector v
  | PComplexVector => asComplexVector v
  | PNamedPoint => asNamedPoint v
  | PBool => asBool v
  | PTime => asTime v
  end.

(** [valueConvert(defV&, data_type)] *)
Definition convertTo (v : defV) (t : data_type) : defV :=
  match t with
  | helics_double => mkV PDouble (asDouble v)
  | helics_int => mkV PInt (asInt v)
  | helics_string => mkV PString (asString v)
  | helics_complex => mkV PComplex (asComplex v)
  | helics_vector => mkV PVector (asVector v)
  | helics_complex_vector => mkV PComplexVector (asComplexVector v)
  | helics_named_point => mkV PNamedPoint (asNamedPoint v)
  | helics_bool => mkV PBool (asBool v)
  | helics_time => mkV PTime (asTime v)
  | _ => v
  end.

Definition bridge (x : double) (inU outU : option unit_map) : double :=
  match inU, outU with
  | Some a, Some b => convert x a b
  | _, _ => x
  end.

Definition far (d a b : double) : bool :=
  Double.ltb d (Double.abs (Double.sub a b)).

Definition far2 (d : double) (a b : double * double) : bool :=
  far d (fst a) (fst b) || far d (snd a) (snd b).

Fixpoint differ {A : Type} (f : A -> A -> bool) (l1 l2 : list A) : bool :=
  match l1, l2 with
  | [], [] => false
  | a :: r1, b :: r2 => f a b || differ f r1 r2
  | _, _ => true
  end.

(** Modelled from the spec: the change detector of section 4.4 on two
    values of the same type. *)
Definition changed (X : primary) : ctype X -> ctype X -> double -> bool :=
  match X with
  | PDouble => fun p v d => far d v p
  | PInt => fun p v d => Double.ltb d (Double.of_Z (Z.abs (v - p)))
  | PString => fun p v _ => negb (String.eqb v p)
  | PComplex => fun p v d => far2 d v p
  | PVector => fun p v d => differ (far d) v p
  | PComplexVector => fun p v d => differ (far2 d) v p
  | PNamedPoint => fun p v _ =>
      negb (String.eqb (name v) (name p) && SFeqb (value v) (value p))
  | PBool => fun p v _ => xorb v p
  | PTime => fun p v d => Double.ltb d (Double.of_Z (Z.abs (v - p)))
  end.

(** Modelled from the spec: section 4.4, "if tags differ, changed". *)
Definition detect (prev : defV) (X : primary) (v : ctype X) (d : double)
  : bool :=
  match std_get X prev with
  | Some p => changed X p v d
  | None => true
  end.

Definition helpers : ValueHelpers :=
  {| data_view := defV;
     precise_unit := unit_map;
     doubleExtractAndConvert := fun dv inU outU =>
       bridge (asDouble dv) inU outU;
     integerExtractAndConvert := fun dv inU outU =>
       match inU, outU with
       | Some a, Some b =>
           mkV PInt
             (round_half_even (convert (Double.of_Z (asInt dv)) a b))
       | _, _ => mkV PInt (asInt dv)
       end;
     valueExtract := extractAs;
     valueExtractRaw := fun dv _ X => extractAs dv X;
     valueExtractRawV := fun dv _ => dv;
     changeDetected := detect;
     make_valid := mkV;
     valueConvert := convertTo;
     getValueRaw_consumes := true |}.

(** Modelled from the spec: [is-updated] (section 4.5) is free of side
    effects; it answers true when the has-update flag is set or the
    federate has a pending buffer.  The callbacks of the fixture leave
    the input alone. *)
Definition application : @Application helpers :=
  {| Input_isUpdated := fun s =>
       (hasUpdate (input s) || fed_isUpdated (fed s), s);
     notify_body := fun _ _ s => s;
     value_body := fun _ _ _ _ s => s |}.

(** A federate holding a pending publication [dv] of doubles published
    in unit [u]. *)
Definition pending (dv : defV) (u : option unit_map) : @Fed helpers :=
  @mkFed helpers true dv helics_double u 0%Z None.

(** A federate with nothing pending. *)
Definition idle : @Fed helpers :=
  @mkFed helpers false (mkV PDouble Double.zero) helics_double None 0%Z
    None.

Definition d (n : Z) : double := Double.of_Z n.
Definition ratio (n m : Z) : double := Double.div (d n) (d m).

(** A freshly constructed input (handle 1). *)
Definition fresh : @Input helpers := @default_Input helpers 1.

(** The same input asked to deliver its value in unit [u]. *)
Definition fresh_in (u : unit_map) : @Input helpers :=
  @mkInput helpers 1 (-1) helics_unknown helics_unknown false false false
    false false no_op 0 0%N (mkV PDouble Double.zero) (Some u) None []
    Double.minus_one Double.zero EmptyString (PDouble, None).

(** An input whose delta was set to 0.5 and whose change detection was
    then switched off. *)
Definition quiet : @Input helpers :=
  enableChangeDetection false (setMinimumChange (ratio 1 2) fresh).

(** Scenario 1 of section 8: a publication of 3.5, no units, no change
    detection. *)
Definition scenario1 : @Sys helpers :=
  @mkSys helpers fresh (pending (mkV PDouble (ratio 7 2)) None).

(** Scenario 2 of section 8: a publication of 1500.0 in metres, read in
    kilometres. *)
Definition scenario2 : @Sys helpers :=
  @mkSys helpers (fresh_in kilometre)
    (pending (mkV PDouble (d 1500)) (Some metre)).

(** Scenario 3 of section 8: delta 0.1, stored 0.0, a publication [v]. *)
Definition scenario3 (v : double) : @Sys helpers :=
  @mkSys helpers (setMinimumChange (ratio 1 10) fresh)
    (pending (mkV PDouble v) None).

(** An input whose stored value is the named point ("bus", 5.0), with
    nothing pending. *)
Definition named : @Sys helpers :=
  @mkSys helpers
    (set_lastValue (mkV PNamedPoint (mkNamedPoint "bus" (d 5))) fresh)
    idle.

End Fixture.

(** ** JSON string vectors (the fragment after Endpoints.hpp:143) *)

Module JsonVector.

Section Generators.

Variable X : Type.

(** [helics::generateJsonQuotedString] (JsonGeneration.hpp) *)
Variable generateJsonQuotedString : string -> string.

(** [ret.push_back(c)] *)
Definition push_back (c : ascii) (ret : string) : string :=
  (ret ++ String c EmptyString)%string.

(** [ret.back() = c], on a non-empty string *)
Fixpoint set_back (c : ascii) (ret : string) : string :=
  match ret with
  | EmptyString => EmptyString
  | String a EmptyString => String c EmptyString
  | String a r => String a (set_back c r)
  end.

(** Lines 172-177 and 192-197: the closing bracket. *)
Definition close_vector (ret : string) : string :=
  if (1 <? String.length ret)%nat
  then set_back "]"%char ret
  else push_back "]"%char ret.

(** One turn of the loop of lines 168-171. *)
Definition add_element (generator : X -> string) (ret : string) (ele : X)
  : string :=
  push_back ","%char (ret ++ generateJsonQuotedString (generator ele))%string.

(** [generateStringVector(data, generator)], lines 162-178 *)
Definition generateStringVector (data : list X) (generator : X -> string)
  : string :=
  let ret := fold_left (add_element generator) data "["%string in
  close_vector ret.

(** [generateStringVector_if(data, generator, valid)], lines 180-198 *)
Definition generateStringVector_if (data : list X) (generator : X -> string)
  (valid : X -> bool) : string :=
  let ret :=
    fold_left
      (fun ret ele => if valid ele then add_element generator ret ele else ret)
      data "["%string in
  close_vector ret.

End Generators.

End JsonVector.

(** ** The [Endpoint] object (Endpoints.hpp:15-141) *)

Module Endpoints.

Record Endpoint : Type := mkEndpoint {
  handle : Z;
  referenceIndex : Z;
  targetDest : string;
  actualName : string
}.

(** [Endpoint(mfed, id, actName)], lines 28-31 *)
Definition new_Endpoint (id : Z) (actName : string) : Endpoint :=
  mkEndpoint id (-1) EmptyString actName.

(** The [MessageFederate] behind the endpoint: its state, the type
    [data_view] with its constructor from a buffer and a length, and the
    two [sendMessage] overloads that take a [data_view], whose bodies are
    in MessageFederate.cpp. *)
Class MessageFederate : Type := {
  federate : Type;
  data_view : Type;
  buffer : Type;
  view : buffer -> nat -> data_view;
  sendMessage : Endpoint -> string -> data_view -> federate -> federate;
  sendMessage_at :
    Endpoint -> string -> data_view -> Time -> federate -> federate
}.

Section Sending.

Context {MF : MessageFederate}.

(** [setTargetDestination], line 132 *)
Definition setTargetDestination (target : string) (e : Endpoint) : Endpoint :=
  mkEndpoint (handle e) (referenceIndex e) target (actualName e).

(** [send(dest, data, data_size)], lines 42-45 *)
Definition send_to_buffer (dest : string) (data : buffer) (data_size : nat)
  (e : Endpoint) (f : federate) : federate :=
  sendMessage e dest (view data data_size) f.

(** [send(dest, data, data_size, sendTime)], lines 54-57 *)
Definition send_to_buffer_at (dest : string) (data : buffer)
  (data_size : nat) (sendTime : Time) (e : Endpoint) (f : federate)
  : federate :=
  sendMessage_at e dest (view data data_size) sendTime f.

(** [send(data, data_size, sendTime)], lines 63-66 *)
Definition send_buffer_at (data : buffer) (data_size : nat) (sendTime : Time)
  (e : Endpoint) (f : federate) : federate :=
  sendMessage_at e (targetDest e) (view data data_size) sendTime f.

(** [send(dest, data)], line 73 *)
Definition send_to (dest : string) (data : data_view) (e : Endpoint)
  (f : federate) : federate :=
  sendMessage e dest data f.

(** [send(dest, data, sendTime)], lines 81-84 *)
Definition send_to_at (dest : string) (data : data_view) (sendTime : Time)
  (e : Endpoint) (f : federate) : federate :=
  sendMessage_at e dest data sendTime f.

(** [send(data, data_size)], lines 89-92 *)
Definition send_buffer (data : buffer) (data_size : nat) (e : Endpoint)
  (f : federate) : federate :=
  sendMessage e (targetDest e) (view data data_size) f.

(** [send(data)], line 98 *)
Definition send (data : data_view) (e : Endpoint) (f : federate) : federate :=
  sendMessage e (targetDest e) data f.

(** [send(data, sendTime)], line 105 *)
Definition send_at (data : data_view) (sendTime : Time) (e : Endpoint)
  (f : federate) : federate :=
  sendMessage_at e (targetDest e) data sendTime f.

End Sending.

(** A federate that records the messages it is asked to send. *)
Definition recorder : MessageFederate :=
  {| federate := list (Z * string * list nat * option Time);
     data_view := list nat;
     buffer := list nat;
     view := fun data n => firstn n data;
     sendMessage := fun e dest data f => f ++ [(handle e, dest, data, None)];
     sendMessage_at := fun e dest data t f =>
       f ++ [(handle e, dest, data, Some t)] |}.

End Endpoints.

(** ** The MATLAB constant getter
    (interfaces/matlab/interface/+helics/HELICS_ERROR_SYSTEM_FAILURE.m) *)

Module Matlab.

(** A MATLAB numeric array, by its elements. *)
Definition mvalue : Type := list Z.

Definition isempty (v : mvalue) : bool :=
  match v with [] => true | _ => false end.

(** The state a call can see: the persistent variable of the function,
    and the calls of [helicsMEX] made so far with their arguments. *)
Record host : Type := mkHost {
  vInitialized : mvalue;
  mex_calls : list (Z * Z)
}.

(** Before the first call a persistent variable is the empty array. *)
Definition fresh_host : host := mkHost [] [].

Section Getter.

(** [helicsMEX], whose answer may depend on the calls made before. *)
Variable helicsMEX : Z -> Z -> list (Z * Z) -> mvalue.

(** [function v = HELICS_ERROR_SYSTEM_FAILURE()] *)
Definition HELICS_ERROR_SYSTEM_FAILURE (h : host) : mvalue * host :=
  let h1 :=
    if isempty (vInitialized h)
    then mkHost (helicsMEX 0 77 (mex_calls h)) (mex_calls h ++ [(0, 77)%Z])
    else h in
  (vInitialized h1, h1).

(** [n] calls in a row: the values returned and the final state. *)
Fixpoint call_times (n : nat) (h : host) : list mvalue * host :=
  match n with
  | O => ([], h)
  | S k =>
      let (v, h1) := HELICS_ERROR_SYSTEM_FAILURE h in
      let (vs, h2) := call_times k h1 in
      (v :: vs, h2)
  end.

End Getter.

End Matlab.

(** ** The string of a stored value *)


(** Inputs of the fixture that store the named point ("bus", 5.0) while a
    publication of the string "load" is pending. *)

Module Replaced.





End Replaced.

(** * Properties *)

Unset Implicit Arguments.

(** ** Comparisons with zero *)

Lemma Double_leb_zero_not_ltb (x : double) :
  Double.leb Double.zero x = true -> Double.ltb x Double.zero = false.
Proof.
  destruct x as [s | s | | s m e]; try destruct s; cbn; congruence.
Qed.

Lemma Double_not_ltb_leb_zero (x : double) :
  Double.is_nan x = false -> Double.ltb x Double.zero = false ->
  Double.leb Double.zero x = true.
Proof.
  destruct x as [s | s | | s m e]; try destruct s; cbn; congruence.
Qed.

Lemma Double_ltb_zero_not_leb (x : double) :
  Double.ltb x Double.zero = true -> Double.leb Double.zero x = false.
Proof.
  destruct x as [s | s | | s m e]; try destruct s; cbn; congruence.
Qed.

(** ** [std::get] *)

Lemma std_get_mkV (X : primary) (x : ctype X) : std_get X (mkV X x) = Some x.
Proof.
  unfold std_get; cbn.
  destruct (primary_eq_dec X X) as [e | n]; [ | congruence ].
  now rewrite (UIP_dec primary_eq_dec e eq_refl).
Qed.

Lemma std_get_index (X : primary) (v : defV) :
  index v = X -> exists x, v = mkV X x /\ std_get X v = Some x.
Proof.
  destruct v as [Y y]; cbn; intros ->.
  exists y; split; [ reflexivity | apply std_get_mkV ].
Qed.

Lemma std_get_Some (X : primary) (v : defV) (x : ctype X) :
  std_get X v = Some x -> v = mkV X x.
Proof.
  destruct v as [Y y]; unfold std_get; cbn.
  destruct (primary_eq_dec Y X) as [e | n]; [ | discriminate ].
  subst Y; cbn. now intros [= ->].
Qed.


Section Settings.

Context {VH : ValueHelpers}.

Lemma delta_setMinimumChange (i : Input) (deltaV : double) :
  delta (setMinimumChange deltaV i) = deltaV.
Proof.
  unfold setMinimumChange.
  destruct (Double.ltb (delta i) Double.zero); cbn;
    destruct (Double.ltb deltaV Double.zero); reflexivity.
Qed.

Lemma enabled_setMinimumChange (i : Input) (deltaV : double) :
  changeDetectionEnabled (setMinimumChange deltaV i)
  = negb (Double.ltb deltaV Double.zero)
    && (Double.ltb (delta i) Double.zero || changeDetectionEnabled i).
Proof.
  unfold setMinimumChange.
  destruct (Double.ltb (delta i) Double.zero); cbn;
    destruct (Double.ltb deltaV Double.zero); reflexivity.
Qed.

(** C2, as amended.  [setMinimumChange(d)] stores [d] as the delta.  It
    leaves change detection disabled when [d < 0].  When [d >= 0] it
    leaves it enabled if the prior delta was negative, and otherwise
    leaves the flag as it was: an input switched off by
    [enableChangeDetection(false)] stays off. *)
Theorem C2_setMinimumChange_flag (i : Input) (deltaV : double) :
  delta (setMinimumChange deltaV i) = deltaV /\
  (Double.ltb deltaV Double.zero = true ->
   changeDetectionEnabled (setMinimumChange deltaV i) = false) /\
  (Double.leb Double.zero deltaV = true ->
   changeDetectionEnabled (setMinimumChange deltaV i)
   = (Double.ltb (delta i) Double.zero || changeDetectionEnabled i)).
Proof.
  split; [ apply delta_setMinimumChange | ].
  rewrite enabled_setMinimumChange; split.
  - now intros ->.
  - intros H. now rewrite (Double_leb_zero_not_ltb _ H).
Qed.

(** The invariant that the two setters maintain when
    [enableChangeDetection(true)] is guarded. *)
Lemma apply_setting_keeps_not_negative (c : setting) (i : Input) :
  (changeDetectionEnabled i = true ->
   Double.ltb (delta i) Double.zero = false) ->
  guarded [c] i = true ->
  changeDetectionEnabled (apply_setting c i) = true ->
  Double.ltb (delta (apply_setting c i)) Double.zero = false.
Proof.
  intros Inv G. destruct c as [deltaV | [ | ]]; cbn in *.
  - rewrite delta_setMinimumChange, enabled_setMinimumChange.
    destruct (Double.ltb deltaV Double.zero); cbn; congruence.
  - intros _. rewrite andb_true_r in G. now destruct (Double.ltb (delta i) _).
  - discriminate.
Qed.

Lemma apply_settings_keep_not_negative (cs : list setting) :
  forall i : Input,
    (changeDetectionEnabled i = true ->
     Double.ltb (delta i) Double.zero = false) ->
    guarded cs i = true ->
    changeDetectionEnabled (apply_settings cs i) = true ->
    Double.ltb (delta (apply_settings cs i)) Double.zero = false.
Proof.
  induction cs as [ | c r IH ]; intros i Inv G.
  - exact Inv.
  - cbn [apply_settings fold_left]. cbn [guarded] in G.
    apply andb_true_iff in G as [Gc Gr].
    apply IH; [ | exact Gr ].
    apply apply_setting_keeps_not_negative; [ exact Inv | ].
    cbn [guarded]. now rewrite Gc.
Qed.

(** C4, as amended.  In every state reached from a fresh input by calls of
    [setMinimumChange(d)] and [enableChangeDetection(flag)] in which
    [enableChangeDetection(true)] is not called while the stored delta is
    negative, an enabled flag comes with a delta that is not negative
    ([delta < 0] is false; for a delta that is not NaN, [delta >= 0]). *)
Theorem C4_enabled_delta_not_negative (h : Z) (cs : list setting) :
  guarded cs (default_Input h) = true ->
  changeDetectionEnabled (apply_settings cs (default_Input h)) = true ->
  Double.ltb (delta (apply_settings cs (default_Input h))) Double.zero = false
  /\ (Double.is_nan (delta (apply_settings cs (default_Input h))) = false ->
      Double.leb Double.zero (delta (apply_settings cs (default_Input h)))
      = true).
Proof.
  intros G E.
  assert (N : Double.ltb (delta (apply_settings cs (default_Input h)))
                Double.zero = false).
  { apply apply_settings_keep_not_negative; [ discriminate | exact G | exact E ]. }
  split; [ exact N | ].
  intros Hn. now apply Double_not_ltb_leb_zero.
Qed.

End Settings.

(** C2 fails as stated: on an input whose delta is 0.5 and whose change
    detection was switched off, [setMinimumChange(1.0)] is a call with
    [d >= 0] that leaves change detection disabled. *)
Lemma C2_counterexample :
  Double.leb Double.zero (Fixture.d 1) = true /\
  changeDetectionEnabled (setMinimumChange (Fixture.d 1) Fixture.quiet)
  = false.
Proof. split; vm_compute; reflexivity. Qed.

Lemma C2_witness :
  delta (setMinimumChange (Fixture.d 1) Fixture.fresh) = Fixture.d 1 /\
  changeDetectionEnabled (setMinimumChange (Fixture.d 1) Fixture.fresh)
  = true.
Proof.
  destruct (C2_setMinimumChange_flag Fixture.fresh (Fixture.d 1))
    as (Hd & _ & He).
  split; [ exact Hd | ].
  rewrite He; vm_compute; reflexivity.
Defined.

(** C4 fails as stated: [enableChangeDetection(true)] on a fresh input
    yields a state whose flag is enabled and whose delta is -1.0. *)
Lemma C4_counterexample :
  let i := apply_settings [EnableChangeDetection true] Fixture.fresh in
  changeDetectionEnabled i = true /\
  Double.ltb (delta i) Double.zero = true /\
  Double.leb Double.zero (delta i) = false.
Proof. repeat split; vm_compute; reflexivity. Qed.

Lemma C4_witness :
  let cs := [SetMinimumChange (Fixture.ratio 1 2);
             EnableChangeDetection false;
             EnableChangeDetection true] in
  Double.ltb (delta (apply_settings cs Fixture.fresh)) Double.zero = false.
Proof.
  apply (C4_enabled_delta_not_negative (VH := Fixture.helpers) 1);
    vm_compute; reflexivity.
Defined.

(** ** The two read paths *)

Section Reading.

Context {VH : ValueHelpers}.

Lemma getValueRaw_buffer (f : Fed) : fst (getValueRaw f) = fed_raw f.
Proof. reflexivity. Qed.

Lemma getValueRaw_source (f : Fed) :
  fed_raw (snd (getValueRaw f)) = fed_raw f /\
  fed_injectionType (snd (getValueRaw f)) = fed_injectionType f /\
  fed_injectionUnits (snd (getValueRaw f)) = fed_injectionUnits f /\
  fed_notification (snd (getValueRaw f)) = fed_notification f.
Proof. unfold getValueRaw; cbn. now destruct getValueRaw_consumes. Qed.

Lemma ensureSource_getValueRaw (f : Fed) (i : Input) :
  ensureSource (snd (getValueRaw f)) i = ensureSource f i.
Proof.
  unfold ensureSource, loadSourceInformation.
  destruct (getValueRaw_source f) as (_ & -> & -> & _). reflexivity.
Qed.

(** Loading the source information touches the injection type and the
    input units only. *)
Lemma ensureSource_frame (f : Fed) (i : Input) :
  lastValue (ensureSource f i) = lastValue i /\
  delta (ensureSource f i) = delta i /\
  changeDetectionEnabled (ensureSource f i) = changeDetectionEnabled i /\
  hasUpdate (ensureSource f i) = hasUpdate i /\
  outputUnits (ensureSource f i) = outputUnits i /\
  inputVectorOp (ensureSource f i) = inputVectorOp i /\
  value_callback (ensureSource f i) = value_callback i.
Proof.
  unfold ensureSource.
  destruct (data_type_eqb (injectionType i) helics_unknown); cbn; tauto.
Qed.

Lemma set_lastValue_same (i : Input) : set_lastValue (lastValue i) i = i.
Proof. now destruct i. Qed.

(** [getValue_impl] when a publication is taken from the federate. *)
Lemma getValue_impl_pending (X : primary) (s : Sys) :
  fed_isUpdated (fed s) || allowDirectFederateUpdate (input s) = true ->
  getValue_impl X s
  = let i1 := ensureSource (fed s) (input s) in
    let f1 := snd (getValueRaw (fed s)) in
    let out := decoded X s in
    if changeDetectionEnabled (input s) then
      if changeDetected (lastValue (input s)) X out (delta (input s))
      then (out, mkSys (set_hasUpdate false
                          (set_lastValue (make_valid X out) i1)) f1)
      else (valueExtract (lastValue (input s)) X,
            mkSys (set_hasUpdate false i1) f1)
    else (out, mkSys (set_hasUpdate false
                        (set_lastValue (make_valid X out) i1)) f1).
Proof.
  intros P. unfold getValue_impl, decoded. rewrite P.
  destruct (getValueRaw (fed s)) as [dv f1] eqn:R.
  assert (Hdv : dv = fed_raw (fed s)) by (now rewrite <- getValueRaw_buffer, R).
  assert (Hf : ensureSource f1 (input s) = ensureSource (fed s) (input s)).
  { rewrite <- (ensureSource_getValueRaw (fed s)). now rewrite R. }
  cbn [snd]. rewrite Hf, Hdv.
  destruct (ensureSource_frame (fed s) (input s)) as (-> & -> & -> & _).
  destruct (changeDetectionEnabled (input s)); [ | reflexivity ].
  now destruct (changeDetected _ _ _ _).
Qed.

(** [getValue_impl] when nothing is taken from the federate. *)
Lemma getValue_impl_cached (X : primary) (s : Sys) :
  fed_isUpdated (fed s) || allowDirectFederateUpdate (input s) = false ->
  getValue_impl X s
  = (valueExtract (lastValue (input s)) X,
     mkSys (set_hasUpdate false (input s)) (fed s)).
Proof. intros P. unfold getValue_impl. now rewrite P. Qed.

(** The refresh of [getValueRef] when a publication is taken. *)
Lemma getValueRef_refresh_pending (X : primary) (s : Sys) :
  fed_isUpdated (fed s) || allowDirectFederateUpdate (input s) = true ->
  getValueRef_refresh X s
  = let i1 := ensureSource (fed s) (input s) in
    let f1 := snd (getValueRaw (fed s)) in
    let out := decoded X s in
    if changeDetectionEnabled (input s) then
      if changeDetected (lastValue (input s)) X out (delta (input s))
      then mkSys (set_lastValue (make_valid X out) i1) f1
      else mkSys i1 f1
    else mkSys (set_lastValue
                  (valueExtractRawV (fed_raw (fed s)) (injectionType i1)) i1)
               f1.
Proof.
  intros P. unfold getValueRef_refresh, decoded. rewrite P.
  destruct (getValueRaw (fed s)) as [dv f1] eqn:R.
  assert (Hdv : dv = fed_raw (fed s)) by (now rewrite <- getValueRaw_buffer, R).
  assert (Hf : ensureSource f1 (input s) = ensureSource (fed s) (input s)).
  { rewrite <- (ensureSource_getValueRaw (fed s)). now rewrite R. }
  cbn [snd]. rewrite Hf, Hdv.
  destruct (ensureSource_frame (fed s) (input s)) as (-> & -> & -> & _).
  destruct (changeDetectionEnabled (input s)); [ | reflexivity ].
  now destruct (changeDetected _ _ _ _).
Qed.



(** C9.  [getValue] into a primary type leaves the has-update flag false
    on every path. *)
Theorem C9_getValue_clears_hasUpdate (X : primary) (s : Sys) :
  hasUpdate (input (snd (getValue X s))) = false.
Proof.
  unfold getValue.
  destruct (fed_isUpdated (fed s) || allowDirectFederateUpdate (input s))
    eqn:P.
  - rewrite (getValue_impl_pending X s P). cbv zeta.
    destruct (changeDetectionEnabled (input s));
      [ destruct (changeDetected _ _ _ _) | ]; reflexivity.
  - now rewrite (getValue_impl_cached X s P).
Qed.

(** The named-point case of [getValueRefImpl<std::string>]. *)
Lemma getValueRefImpl_string_named_point (np : NamedPoint) :
  getValueRefImpl PString (mkV PNamedPoint np)
  = (Some (name np), mkV PNamedPoint np).
Proof.
  cbn [getValueRefImpl]. unfold getValueRefImpl_string.
  now rewrite std_get_mkV.
Qed.

(** When the stored value to be viewed as a string is a named point,
    [getValueRef<std::string>] returns the name field of the point,
    whatever its numeric field is, and leaves the stored value as it is,
    without converting it. *)
Lemma getValueRef_string_views_named_point (s : Sys) :
  index (lastValue (input (getValueRef_refresh PString s))) = PNamedPoint ->
  exists np : NamedPoint,
    lastValue (input (getValueRef_refresh PString s)) = mkV PNamedPoint np /\
    fst (getValueRef PString s) = Some (name np) /\
    snd (getValueRef PString s) = getValueRef_refresh PString s.
Proof.
  intros T. destruct (std_get_index _ _ T) as (np & E & _).
  exists np. split; [ exact E | ].
  unfold getValueRef. rewrite E, getValueRefImpl_string_named_point.
  cbn [fst snd]. split; [ reflexivity | ].
  rewrite <- E, set_lastValue_same. now destruct (getValueRef_refresh PString s).
Qed.




(** With change detection disabled, the refresh of [getValueRef] stores
    the raw buffer decoded by its injection type; neither
    [doubleExtractAndConvert] nor [integerExtractAndConvert] is called. *)
Lemma getValueRef_refresh_without_detection (X : primary) (s : Sys) :
  changeDetectionEnabled (input s) = false ->
  fed_isUpdated (fed s) = true ->
  lastValue (input (getValueRef_refresh X s))
  = valueExtractRawV (fed_raw (fed s))
      (injectionType (ensureSource (fed s) (input s))).
Proof.
  intros E U.
  rewrite getValueRef_refresh_pending by (now rewrite U).
  cbv zeta. now rewrite E.
Qed.

End Reading.

(** ** Callbacks *)

Section Callbacks.

Context {VH : ValueHelpers} {App : Application}.

Lemma registerNotificationCallback_installs (f : cbid) (s : Sys) :
  fed_notification (fed (registerNotificationCallback f s))
  = Some (NotificationLambda f) /\
  input (registerNotificationCallback f s) = input s.
Proof. split; reflexivity. Qed.

Lemma setInputNotificationCallback_installs (X : primary) (cb : cbid)
  (s : Sys) :
  fed_notification (fed (setInputNotificationCallback X cb s))
  = Some ValueLambda /\
  value_callback (input (setInputNotificationCallback X cb s))
  = (X, Some cb).
Proof. split; reflexivity. Qed.

Lemma run_notification_calls (f : cbid) (t : Time) (w : World) :
  calls (run_handler (NotificationLambda f) t w)
  = calls w ++ (if fst (Input_isUpdated (sys w)) then [NotifyCall f t] else [])
  /\ sys (run_handler (NotificationLambda f) t w)
     = (if fst (Input_isUpdated (sys w))
        then notify_body f t (snd (Input_isUpdated (sys w)))
        else snd (Input_isUpdated (sys w))).
Proof.
  cbn [run_handler].
  destruct (Input_isUpdated (sys w)) as [[ | ] s1]; cbn;
    rewrite ?app_nil_r; split; reflexivity.
Qed.

(** C5.  While the callback installed for the input is the one built by
    [registerNotificationCallback(f)], a dispatch at time [t] invokes [f]
    exactly when [isUpdated()] answers true at that point, and the only
    argument of the invocation is [t]. *)
Theorem C5_notification_iff_isUpdated (f : cbid) (t : Time) (w : World) :
  fed_notification (fed (sys w)) = Some (NotificationLambda f) ->
  let updated := fst (Input_isUpdated (sys w)) in
  calls (dispatch t w)
  = calls w ++ (if updated then [NotifyCall f t] else []) /\
  sys (dispatch t w)
  = (if updated then notify_body f t (snd (Input_isUpdated (sys w)))
     else snd (Input_isUpdated (sys w))).
Proof.
  intros I. unfold dispatch. rewrite I. apply run_notification_calls.
Qed.

Lemma handleCallback_calls (X : primary) (cb : cbid) (t : Time) (w : World) :
  value_callback (input (sys w)) = (X, Some cb) ->
  handleCallback t w
  = invoke_value cb X (fst (getValue X (sys w))) t
      (mkWorld (snd (getValue X (sys w))) (calls w)).
Proof.
  intros V. unfold handleCallback. rewrite V.
  now destruct (getValue X (sys w)).
Qed.

(** C6, as amended.  [setInputNotificationCallback] and
    [registerNotificationCallback] both install their closure with
    [fed->setInputNotificationCallback] for the same input, which holds
    one callback: the registration made last replaces the earlier one.
    After a typed callback [cb] and then a notification callback [f], a
    dispatch runs only the notification closure ([f] fires iff
    [isUpdated()], [cb] does not fire); after the reverse order it runs
    only [handleCallback] ([cb] fires, [f] does not). *)
Theorem C6_last_registration_wins (X : primary) (cb f : cbid) (s : Sys)
  (log : list call) (t : Time) :
  (let w := mkWorld
              (registerNotificationCallback f
                 (setInputNotificationCallback X cb s)) log in
   dispatch t w = run_handler (NotificationLambda f) t w /\
   calls (dispatch t w)
   = log ++ (if fst (Input_isUpdated (sys w))
             then [NotifyCall f t] else [])) /\
  (let w := mkWorld
              (setInputNotificationCallback X cb
                 (registerNotificationCallback f s)) log in
   dispatch t w = handleCallback t w /\
   calls (dispatch t w)
   = log ++ [ValueCall cb (mkV X (fst (getValue X (sys w)))) t]).
Proof.
  split; cbv zeta.
  - split; [ reflexivity | ].
    unfold dispatch; cbn [sys fed registerNotificationCallback
      fed_setInputNotificationCallback fed_notification].
    apply run_notification_calls.
  - split; [ reflexivity | ].
    unfold dispatch; cbn [sys fed setInputNotificationCallback
      fed_setInputNotificationCallback fed_notification run_handler].
    now rewrite (handleCallback_calls X cb).
Qed.


Lemma decoded_stored_state (X : primary) (s : Sys) :
  decoded X (stored_state X s) = decoded X s.
Proof.
  destruct s as [i f]. unfold stored_state.
  generalize (make_valid X (decoded X (mkSys i f))); intros v.
  unfold decoded.
  destruct (getValueRaw_source f) as (R & T & U & _).
  cbn [fed input]. rewrite R.
  unfold ensureSource, loadSourceInformation, extract. rewrite T, U.
  destruct (data_type_eqb (injectionType i) helics_unknown) eqn:Q; cbn.
  - destruct (data_type_eqb (fed_injectionType f) helics_unknown);
      reflexivity.
  - now rewrite Q.
Qed.

(** Reading the input in that state gives the decoded value back. *)
Lemma getValue_stored_state (X : primary) (s : Sys) :
  (forall Y (y : ctype Y), valueExtract (make_valid Y y) Y = y) ->
  fst (getValue X (stored_state X s)) = decoded X s.
Proof.
  intros RT. unfold getValue.
  set (s1 := stored_state X s).
  assert (L : lastValue (input s1) = make_valid X (decoded X s))
    by reflexivity.
  destruct (fed_isUpdated (fed s1) || allowDirectFederateUpdate (input s1))
    eqn:P.
  - rewrite (getValue_impl_pending X s1 P). cbv zeta.
    subst s1. rewrite decoded_stored_state.
    destruct (changeDetectionEnabled _);
      [ destruct (changeDetected _ _ _ _) | ]; cbn [fst]; try reflexivity.
    rewrite L. apply RT.
  - rewrite (getValue_impl_cached X s1 P). cbn [fst]. rewrite L. apply RT.
Qed.


End Callbacks.

(** ** The properties on the fixture *)

Lemma Fixture_extract_make_valid (Y : primary) (y : ctype Y) :
  Fixture.extractAs (mkV Y y) Y = y.
Proof. destruct Y; reflexivity. Qed.



(** C3 fails on the code.  In scenario 2 of section 8 (a publication of
    1500.0 in metres, read in kilometres, change detection off)
    [getValue<double>] returns 1.5 and [getValueRef<double>] returns
    1500.0: the branch of [getValueRef] without change detection (line
    619) does not apply the unit bridge that its other branch and
    [getValue_impl] apply. *)
Theorem C3_by_reference_skips_units :
  fst (getValue PDouble Fixture.scenario2) = Fixture.ratio 3 2 /\
  fst (getValueRef PDouble Fixture.scenario2) = Some (Fixture.d 1500) /\
  Fixture.ratio 3 2 <> Fixture.d 1500.
Proof.
  split; [ vm_compute; reflexivity | ].
  split; [ vm_compute; reflexivity | ].
  vm_compute; discriminate.
Qed.

Lemma C5_witness :
  let w := @mkWorld Fixture.helpers
             (registerNotificationCallback 2 Fixture.scenario1) [] in
  calls (dispatch (App := Fixture.application) 7%Z w) = [NotifyCall 2 7%Z].
Proof.
  intros w.
  destruct (C5_notification_iff_isUpdated (App := Fixture.application)
              2 7%Z w) as (H & _); [ reflexivity | ].
  rewrite H. vm_compute; reflexivity.
Defined.

(** C6 fails as stated: on an input with a pending publication, after
    [setInputNotificationCallback<double>] (callback 1) and then
    [registerNotificationCallback] (callback 2), the update is observable
    and the dispatch invokes callback 2 only; callback 1 does not fire. *)
Lemma C6_counterexample :
  let w := @mkWorld Fixture.helpers
             (registerNotificationCallback 2
                (setInputNotificationCallback PDouble 1 Fixture.scenario1))
             [] in
  fst (Input_isUpdated (Application := Fixture.application) (sys w)) = true /\
  calls (dispatch (App := Fixture.application) 7%Z w) = [NotifyCall 2 7%Z] /\
  forall v : defV,
    ~ In (ValueCall 1 v 7%Z) (calls (dispatch (App := Fixture.application) 7%Z w)).
Proof.
  intros w.
  assert (C : calls (dispatch (App := Fixture.application) 7%Z w)
              = [NotifyCall 2 7%Z]) by (vm_compute; reflexivity).
  split; [ vm_compute; reflexivity | ].
  split; [ exact C | ].
  intros v. rewrite C. intros [H | []]. discriminate H.
Qed.





(** On the fixture, the by-reference string read of the named point
    ("bus", 5.0) is "bus". *)
Example named_point_read_by_reference :
  fst (getValueRef PString Fixture.named) = Some "bus"%string.
Proof. vm_compute; reflexivity. Qed.


(** * Further properties of the header *)

(** ** The change-detection settings *)

Section MoreSettings.

Context {VH : ValueHelpers}.

(** X1.  Calling [setMinimumChange] twice with the same argument leaves
    the input as one call does. *)
Theorem setMinimumChange_idempotent (i : Input) (deltaV : double) :
  setMinimumChange deltaV (setMinimumChange deltaV i)
  = setMinimumChange deltaV i.
Proof.
  destruct i as [h ri tt it en hu da ut mu op pc ch lv ou iu st de th an vc].
  unfold setMinimumChange; cbn.
  destruct (Double.ltb de Double.zero); cbn;
    destruct (Double.ltb deltaV Double.zero) eqn:E; cbn;
    rewrite ?E; reflexivity.
Qed.

(** X2.  A negative minimum change followed by one that is not negative
    leaves change detection enabled, whatever the input was before: the
    first call disables through the delta, the second one undoes it. *)
Theorem setMinimumChange_reenables (i : Input) (d1 d2 : double) :
  Double.ltb d1 Double.zero = true ->
  Double.ltb d2 Double.zero = false ->
  changeDetectionEnabled (setMinimumChange d2 (setMinimumChange d1 i)) = true
  /\ delta (setMinimumChange d2 (setMinimumChange d1 i)) = d2.
Proof.
  intros N1 N2. split; [ | apply delta_setMinimumChange ].
  rewrite enabled_setMinimumChange, delta_setMinimumChange, N1, N2.
  reflexivity.
Qed.

(** X3.  On a freshly constructed input, whose delta is -1.0,
    [setMinimumChange(d)] leaves change detection enabled exactly when [d]
    is not negative. *)
Theorem setMinimumChange_on_fresh_input (h : Z) (deltaV : double) :
  changeDetectionEnabled (setMinimumChange deltaV (default_Input h))
  = negb (Double.ltb deltaV Double.zero).
Proof.
  rewrite enabled_setMinimumChange.
  change (Double.ltb (delta (default_Input h)) Double.zero) with true.
  now rewrite orb_true_l, andb_true_r.
Qed.

(** X4.  After any run of the two setters the stored delta is the argument
    of the last [setMinimumChange] call, and the delta the run started
    with when there was none: [enableChangeDetection] never touches it. *)
Theorem apply_settings_delta (cs : list setting) (i : Input) :
  delta (apply_settings cs i) = last_delta cs (delta i).
Proof.
  unfold apply_settings. revert i.
  induction cs as [ | [d | b] r IH ]; intros i; cbn [fold_left last_delta].
  - reflexivity.
  - rewrite IH. cbn [apply_setting]. now rewrite delta_setMinimumChange.
  - rewrite IH. reflexivity.
Qed.

End MoreSettings.

Lemma setMinimumChange_reenables_witness :
  changeDetectionEnabled
    (setMinimumChange (Fixture.d 2)
       (setMinimumChange Double.minus_one Fixture.quiet)) = true.
Proof.
  apply (setMinimumChange_reenables Fixture.quiet Double.minus_one
           (Fixture.d 2)); vm_compute; reflexivity.
Defined.

(** ** More on the two read paths *)

Section MoreReading.

Context {VH : ValueHelpers}.

Lemma ensureSource_known (f : Fed) (i : Input) :
  data_type_eqb (injectionType i) helics_unknown = false ->
  ensureSource f i = i.
Proof. intros K. unfold ensureSource. now rewrite K. Qed.

(** What is decoded depends on the raw buffer and on the source
    information only. *)
Lemma extract_source (X : primary) (dv : data_view) (a b : Input) :
  injectionType a = injectionType b ->
  inputUnits a = inputUnits b ->
  outputUnits a = outputUnits b ->
  extract X dv a = extract X dv b.
Proof. intros Ha Hb Hc. unfold extract. now rewrite Ha, Hb, Hc. Qed.

(** Loading the source a second time gives the same source. *)
Lemma ensureSource_again (f : Fed) (i j : Input) :
  injectionType j = injectionType (ensureSource f i) ->
  inputUnits j = inputUnits (ensureSource f i) ->
  outputUnits j = outputUnits (ensureSource f i) ->
  injectionType (ensureSource f j) = injectionType (ensureSource f i) /\
  inputUnits (ensureSource f j) = inputUnits (ensureSource f i) /\
  outputUnits (ensureSource f j) = outputUnits (ensureSource f i).
Proof.
  unfold ensureSource, data_type_eqb, loadSourceInformation.
  destruct (data_type_eq_dec (injectionType i) helics_unknown) as [ei | ni];
    destruct (data_type_eq_dec (injectionType j) helics_unknown) as [ej | nj];
    cbn; intros T U O; repeat split; congruence.
Qed.

Lemma decoded_resume (X : primary) (i j : Input) (f : Fed) :
  injectionType j = injectionType (ensureSource f i) ->
  inputUnits j = inputUnits (ensureSource f i) ->
  outputUnits j = outputUnits (ensureSource f i) ->
  decoded X (mkSys j (snd (getValueRaw f))) = decoded X (mkSys i f).
Proof.
  intros T U O. unfold decoded. cbn [fed input].
  rewrite ensureSource_getValueRaw.
  destruct (getValueRaw_source f) as (-> & _).
  destruct (ensureSource_again f i j T U O) as (A & B & C).
  now apply extract_source.
Qed.

(** X5.  Two reads in a row return the same value: whatever the first
    [getValue] did (decode and store, decode and keep, or return the
    cached value), a second [getValue] of the same type made right after
    it returns what the first returned.  The hypothesis is the contract of
    the helpers: extracting an [X] from a value made from an [X] gives it
    back. *)
Theorem getValue_twice (X : primary) (s : Sys) :
  (forall Y (y : ctype Y), valueExtract (make_valid Y y) Y = y) ->
  fst (getValue X (snd (getValue X s))) = fst (getValue X s).
Proof.
  intros RT.
  destruct (fed_isUpdated (fed s) || allowDirectFederateUpdate (input s))
    eqn:P.
  - unfold getValue at 2 3. rewrite (getValue_impl_pending X s P). cbv zeta.
    destruct (changeDetectionEnabled (input s)) eqn:E;
      [ destruct (changeDetected _ _ _ _) eqn:C | ]; cbn [fst snd].
    + apply (getValue_stored_state X s RT).
    + set (s1 := mkSys (set_hasUpdate false (ensureSource (fed s) (input s)))
                   (snd (getValueRaw (fed s)))).
      destruct (ensureSource_frame (fed s) (input s)) as (L & D & CE & _).
      unfold getValue.
      destruct (fed_isUpdated (fed s1) || allowDirectFederateUpdate (input s1))
        eqn:P1.
      * rewrite (getValue_impl_pending X s1 P1). cbv zeta.
        assert (Dec : decoded X s1 = decoded X s).
        { destruct s as [i f]. subst s1. cbn [fed input].
          now apply decoded_resume. }
        rewrite Dec.
        change (changeDetectionEnabled (input s1))
          with (changeDetectionEnabled (ensureSource (fed s) (input s))).
        change (lastValue (input s1))
          with (lastValue (ensureSource (fed s) (input s))).
        change (delta (input s1))
          with (delta (ensureSource (fed s) (input s))).
        rewrite CE, L, D, E, C. reflexivity.
      * rewrite (getValue_impl_cached X s1 P1). cbn [fst].
        change (lastValue (input s1))
          with (lastValue (ensureSource (fed s) (input s))).
        now rewrite L.
    + apply (getValue_stored_state X s RT).
  - unfold getValue at 2 3. rewrite (getValue_impl_cached X s P).
    cbn [fst snd]. unfold getValue.
    apply orb_false_iff in P as [P1 P2].
    rewrite getValue_impl_cached; [ reflexivity | ].
    cbn [fed input]. rewrite P1. reflexivity.
Qed.

(** X6.  Once the source information is known, [getValue] changes
    nothing in the input but the stored value and the has-update flag; in
    particular the injection type and the input units are not loaded
    again, and the settings of change detection stay as they are. *)
Theorem getValue_frame (X : primary) (s : Sys) :
  data_type_eqb (injectionType (input s)) helics_unknown = false ->
  exists v : defV,
    input (snd (getValue X s))
    = set_hasUpdate false (set_lastValue v (input s)).
Proof.
  intros K. unfold getValue.
  destruct (fed_isUpdated (fed s) || allowDirectFederateUpdate (input s))
    eqn:P.
  - rewrite (getValue_impl_pending X s P). cbv zeta.
    rewrite (ensureSource_known (fed s) (input s) K).
    destruct (changeDetectionEnabled (input s));
      [ destruct (changeDetected _ _ _ _) | ]; cbn [snd input].
    + eexists; reflexivity.
    + exists (lastValue (input s)). now rewrite set_lastValue_same.
    + eexists; reflexivity.
  - rewrite (getValue_impl_cached X s P). cbn [snd input].
    exists (lastValue (input s)). now rewrite set_lastValue_same.
Qed.

(** X7.  Once the source information is known, [getValueRef] changes
    nothing in the input but the stored value. *)
Theorem getValueRef_frame (X : primary) (s : Sys) :
  data_type_eqb (injectionType (input s)) helics_unknown = false ->
  exists v : defV,
    input (snd (getValueRef X s)) = set_lastValue v (input s).
Proof.
  intros K. unfold getValueRef.
  assert (R : exists u, input (getValueRef_refresh X s)
                        = set_lastValue u (input s)).
  { destruct (fed_isUpdated (fed s) || allowDirectFederateUpdate (input s))
      eqn:P.
    - rewrite (getValueRef_refresh_pending X s P). cbv zeta.
      rewrite (ensureSource_known (fed s) (input s) K).
      destruct (changeDetectionEnabled (input s));
        [ destruct (changeDetected _ _ _ _) | ]; cbn [input].
      + eexists; reflexivity.
      + exists (lastValue (input s)). now rewrite set_lastValue_same.
      + eexists; reflexivity.
    - unfold getValueRef_refresh. rewrite P.
      exists (lastValue (input s)). now rewrite set_lastValue_same. }
  destruct R as (u & R).
  destruct (getValueRefImpl X (lastValue (input (getValueRef_refresh X s))))
    as [view val].
  cbn [snd input]. exists val. rewrite R. reflexivity.
Qed.

(** X8.  Without change detection every value taken from the federate is
    stored and returned as decoded.  The value is taken when the federate
    reports an update, and also when it does not but the has-update flag
    of the input is set and no multi-input operation is configured
    ([allowDirectFederateUpdate]). *)
Theorem getValue_without_detection (X : primary) (s : Sys) :
  changeDetectionEnabled (input s) = false ->
  fed_isUpdated (fed s) = true
  \/ (hasUpdate (input s) = true /\ inputVectorOp (input s) = no_op) ->
  getValue X s = (decoded X s, stored_state X s).
Proof.
  intros E P.
  assert (P' : fed_isUpdated (fed s) || allowDirectFederateUpdate (input s)
               = true).
  { destruct P as [U | (H & O)].
    - now rewrite U.
    - unfold allowDirectFederateUpdate. rewrite H, E, O. apply orb_true_r. }
  unfold getValue. rewrite (getValue_impl_pending X s P'). cbv zeta.
  now rewrite E.
Qed.

(** The view that [getValueRefImpl] returns, when conversion and
    extraction agree. *)
Lemma getValueRefImpl_view (X : primary) (val : defV) :
  (forall v Y, valueConvert v (helicsType Y) = mkV Y (valueExtract v Y)) ->
  (forall np, valueExtract (mkV PNamedPoint np) PString = name np) ->
  fst (getValueRefImpl X val) = Some (valueExtract val X).
Proof.
  intros HC HN.
  assert (G : forall Y v, fst (getValueRefImpl_generic Y v)
                          = Some (valueExtract v Y)).
  { intros Y v. unfold getValueRefImpl_generic. cbn [fst].
    rewrite HC. apply std_get_mkV. }
  destruct (primary_eq_dec X PString) as [-> | NS].
  - cbn [getValueRefImpl]. unfold getValueRefImpl_string.
    destruct (std_get PNamedPoint val) as [np | ] eqn:Q.
    + apply std_get_Some in Q. subst val. cbn [fst]. now rewrite HN.
    + cbn [fst]. change helics_string with (helicsType PString).
      rewrite HC. apply std_get_mkV.
  - assert (E : getValueRefImpl X val = getValueRefImpl_generic X val)
      by (destruct X; try reflexivity; congruence).
    rewrite E. apply G.
Qed.

(** X9.  Where the two read paths agree.  When change detection is
    enabled, or when nothing is taken from the federate, [getValueRef<X>]
    returns the value that [getValue<X>] returns from the same state.
    The hypotheses are contracts of the helpers: converting in place and
    extracting agree, extracting from a value made from an [X] gives it
    back, and the string extracted from a named point is its name. *)
Theorem read_paths_agree (X : primary) (s : Sys) :
  (forall v Y, valueConvert v (helicsType Y) = mkV Y (valueExtract v Y)) ->
  (forall Y (y : ctype Y), valueExtract (make_valid Y y) Y = y) ->
  (forall np, valueExtract (mkV PNamedPoint np) PString = name np) ->
  changeDetectionEnabled (input s) = true
  \/ fed_isUpdated (fed s) || allowDirectFederateUpdate (input s) = false ->
  fst (getValueRef X s) = Some (fst (getValue X s)).
Proof.
  intros HC RT HN Hc.
  assert (V : fst (getValueRef X s)
              = Some (valueExtract
                        (lastValue (input (getValueRef_refresh X s))) X)).
  { unfold getValueRef.
    rewrite <- (getValueRefImpl_view X _ HC HN).
    now destruct (getValueRefImpl X _). }
  rewrite V. f_equal. unfold getValue.
  destruct (fed_isUpdated (fed s) || allowDirectFederateUpdate (input s))
    eqn:P.
  - destruct Hc as [E | F]; [ | discriminate ].
    rewrite (getValue_impl_pending X s P), (getValueRef_refresh_pending X s P).
    cbv zeta. rewrite E.
    destruct (ensureSource_frame (fed s) (input s)) as (L & _).
    destruct (changeDetected _ _ _ _); cbn [fst input lastValue].
    + apply RT.
    + now rewrite L.
  - rewrite (getValue_impl_cached X s P). unfold getValueRef_refresh.
    now rewrite P.
Qed.

(** X10.  The default is what a reader gets before a publication arrives:
    after [setDefault(v)], a [getValue] that takes nothing from the
    federate returns [v], and a read in another type [Y] returns the
    default extracted as a [Y]. *)
Theorem setDefault_then_getValue (X Y : primary) (v : ctype X) (i : Input)
  (f : Fed) :
  (forall Z (z : ctype Z), valueExtract (make_valid Z z) Z = z) ->
  fed_isUpdated f || allowDirectFederateUpdate i = false ->
  fst (getValue X (mkSys (setDefault X v i) f)) = v /\
  fst (getValue Y (mkSys (setDefault X v i) f))
  = valueExtract (make_valid X v) Y /\
  lastValue (input (snd (getValue Y (mkSys (setDefault X v i) f))))
  = make_valid X v.
Proof.
  intros RT P.
  assert (C : forall T, getValue T (mkSys (setDefault X v i) f)
              = (valueExtract (make_valid X v) T,
                 mkSys (set_hasUpdate false (setDefault X v i)) f)).
  { intros T. unfold getValue. now rewrite getValue_impl_cached. }
  rewrite !C. cbn [fst snd input]. repeat split. apply RT.
Qed.

End MoreReading.

Section MoreCallbacks.

Context {VH : ValueHelpers} {App : Application}.

(** X11.  [handleCallback] calls the typed callback whether or not the
    publication passes change detection: when the detector answers false
    the callback is still invoked, with the value that was already stored,
    and it runs in a state whose stored value is unchanged. *)
Theorem handleCallback_filtered (X : primary) (cb : cbid) (t : Time)
  (w : World) :
  value_callback (input (sys w)) = (X, Some cb) ->
  fed_isUpdated (fed (sys w)) = true ->
  changeDetectionEnabled (input (sys w)) = true ->
  changeDetected (lastValue (input (sys w))) X (decoded X (sys w))
    (delta (input (sys w))) = false ->
  exists s1 : Sys,
    handleCallback t w
    = invoke_value cb X (valueExtract (lastValue (input (sys w))) X) t
        (mkWorld s1 (calls w)) /\
    lastValue (input s1) = lastValue (input (sys w)) /\
    hasUpdate (input s1) = false.
Proof.
  intros V U E C.
  exists (snd (getValue X (sys w))).
  rewrite (handleCallback_calls X cb t w V).
  assert (P : fed_isUpdated (fed (sys w))
              || allowDirectFederateUpdate (input (sys w)) = true)
    by (now rewrite U).
  unfold getValue. rewrite (getValue_impl_pending X (sys w) P). cbv zeta.
  rewrite E, C. cbn [fst snd input].
  destruct (ensureSource_frame (fed (sys w)) (input (sys w))) as (L & _).
  repeat split. exact L.
Qed.

End MoreCallbacks.

(** ** The further properties on the fixture *)

Lemma Fixture_convert_extract (v : defV) (Y : primary) :
  Fixture.convertTo v (helicsType Y) = mkV Y (Fixture.extractAs v Y).
Proof. destruct Y; reflexivity. Qed.

Lemma getValue_twice_witness :
  fst (getValue PDouble (snd (getValue PDouble Fixture.scenario1)))
  = Fixture.ratio 7 2.
Proof.
  rewrite (getValue_twice (VH := Fixture.helpers) PDouble Fixture.scenario1
             Fixture_extract_make_valid).
  vm_compute; reflexivity.
Defined.

Lemma getValue_frame_witness :
  let s := snd (getValue PDouble Fixture.scenario1) in
  exists v : defV,
    input (snd (getValue PInt s))
    = set_hasUpdate false (set_lastValue v (input s)).
Proof.
  intros s. apply (getValue_frame PInt s). vm_compute; reflexivity.
Defined.

Lemma getValueRef_frame_witness :
  let s := snd (getValue PDouble Fixture.scenario1) in
  exists v : defV,
    input (snd (getValueRef PString s)) = set_lastValue v (input s).
Proof.
  intros s. apply (getValueRef_frame PString s). vm_compute; reflexivity.
Defined.

Lemma getValue_without_detection_witness :
  fst (getValue PDouble Fixture.scenario1) = Fixture.ratio 7 2.
Proof.
  rewrite (getValue_without_detection PDouble Fixture.scenario1).
  - vm_compute; reflexivity.
  - vm_compute; reflexivity.
  - left. vm_compute; reflexivity.
Defined.

Lemma read_paths_agree_witness :
  let s := Fixture.scenario3 (Fixture.ratio 11 100) in
  fst (getValueRef PDouble s) = Some (Fixture.ratio 11 100).
Proof.
  intros s.
  rewrite (read_paths_agree (VH := Fixture.helpers) PDouble s
             Fixture_convert_extract Fixture_extract_make_valid).
  - vm_compute; reflexivity.
  - intros np; reflexivity.
  - left. vm_compute; reflexivity.
Defined.

Lemma setDefault_then_getValue_witness :
  fst (getValue PInt
         (@mkSys Fixture.helpers (setDefault PInt 42%Z Fixture.fresh)
            Fixture.idle)) = 42%Z.
Proof.
  apply (setDefault_then_getValue (VH := Fixture.helpers) PInt PInt 42%Z
           Fixture.fresh Fixture.idle Fixture_extract_make_valid).
  vm_compute; reflexivity.
Defined.

Lemma handleCallback_filtered_witness :
  let w := @mkWorld Fixture.helpers
             (setInputNotificationCallback PDouble 1
                (Fixture.scenario3 (Fixture.ratio 1 20))) [] in
  exists s1 : Sys,
    handleCallback (App := Fixture.application) 7%Z w
    = invoke_value (App := Fixture.application) 1 PDouble
        (@valueExtract Fixture.helpers (lastValue (input (sys w))) PDouble)
        7%Z (mkWorld s1 (calls w)) /\
    lastValue (input s1) = lastValue (input (sys w)) /\
    hasUpdate (input s1) = false.
Proof.
  intros w.
  apply (handleCallback_filtered (App := Fixture.application) PDouble 1 7%Z w);
    vm_compute; reflexivity.
Defined.

(** * JSON string vectors *)

Section JsonVectorFacts.

Variable X : Type.
Variable quoted : string -> string.

Lemma string_app_assoc (a b c : string) :
  ((a ++ b) ++ c = a ++ (b ++ c))%string.
Proof. induction a as [ | x a IH ]; cbn; [ reflexivity | now rewrite IH ]. Qed.

Lemma string_length_app (a b : string) :
  String.length (a ++ b) = (String.length a + String.length b)%nat.
Proof. induction a as [ | x a IH ]; cbn; [ reflexivity | now rewrite IH ]. Qed.

Lemma set_back_push_back (c a : ascii) (s : string) :
  JsonVector.set_back c (JsonVector.push_back a s) = JsonVector.push_back c s.
Proof.
  unfold JsonVector.push_back.
  induction s as [ | x r IH ]; [ reflexivity | ].
  cbn [append JsonVector.set_back].
  destruct r as [ | y r ]; [ reflexivity | ].
  cbn [append] in *. now rewrite IH.
Qed.

(** The loop of [generateStringVector] on a non-empty range. *)
Lemma fold_add_element (generator : X -> string) (data : list X) :
  forall acc : string,
    data <> [] ->
    fold_left (JsonVector.add_element quoted generator) data acc
    = JsonVector.push_back ","%char
        (acc ++ String.concat "," (map (fun e => quoted (generator e)) data)).
Proof.
  induction data as [ | e r IH ]; intros acc NE; [ congruence | ].
  destruct r as [ | e2 r ].
  - reflexivity.
  - cbn [fold_left]. cbn [fold_left] in IH. rewrite IH by discriminate.
    unfold JsonVector.add_element, JsonVector.push_back.
    cbn [map String.concat].
    now rewrite !string_app_assoc.
Qed.

Lemma generateStringVector_text (data : list X) (generator : X -> string) :
  JsonVector.generateStringVector quoted data generator
  = ("[" ++ String.concat "," (map (fun e => quoted (generator e)) data)
         ++ "]")%string.
Proof.
  unfold JsonVector.generateStringVector.
  destruct data as [ | e r ]; [ reflexivity | ].
  rewrite fold_add_element by discriminate.
  unfold JsonVector.close_vector.
  set (body := String.concat "," (map (fun e0 => quoted (generator e0)) (e :: r))).
  assert (L : (1 <? String.length
                 (JsonVector.push_back ","%char ("[" ++ body)))%nat = true).
  { apply Nat.ltb_lt. unfold JsonVector.push_back.
    rewrite string_length_app. cbn. lia. }
  rewrite L, set_back_push_back. unfold JsonVector.push_back.
  now rewrite string_app_assoc.
Qed.

(** X12.  [generateStringVector] returns the bracketed, comma-separated
    list of the quoted strings of the elements, in order; an empty range
    gives the text of an empty list and there is no trailing comma. *)
Theorem generateStringVector_closed_form (data : list X)
  (generator : X -> string) :
  JsonVector.generateStringVector quoted data generator
  = ("[" ++ String.concat "," (map (fun e => quoted (generator e)) data)
         ++ "]")%string.
Proof. exact (generateStringVector_text data generator). Qed.

Lemma fold_add_element_if (generator : X -> string) (valid : X -> bool)
  (data : list X) :
  forall acc : string,
    fold_left
      (fun ret ele =>
         if valid ele then JsonVector.add_element quoted generator ret ele
         else ret) data acc
    = fold_left (JsonVector.add_element quoted generator)
        (filter valid data) acc.
Proof.
  induction data as [ | e r IH ]; intros acc; [ reflexivity | ].
  cbn [fold_left filter]. rewrite IH.
  now destruct (valid e).
Qed.

(** X13.  [generateStringVector_if] is [generateStringVector] on the
    elements that pass the validator, in their order; when none passes
    the result is "[]". *)
Theorem generateStringVector_if_filter (data : list X)
  (generator : X -> string) (valid : X -> bool) :
  JsonVector.generateStringVector_if quoted data generator valid
  = JsonVector.generateStringVector quoted (filter valid data) generator.
Proof.
  unfold JsonVector.generateStringVector_if, JsonVector.generateStringVector.
  now rewrite fold_add_element_if.
Qed.

Lemma string_concat_app (sep : string) (l1 l2 : list string) :
  l1 <> [] -> l2 <> [] ->
  String.concat sep (l1 ++ l2)
  = (String.concat sep l1 ++ sep ++ String.concat sep l2)%string.
Proof.
  intros N1 N2. induction l1 as [ | a r IH ]; [ congruence | ].
  destruct r as [ | a2 r ].
  - destruct l2 as [ | b l2 ]; [ congruence | reflexivity ].
  - change (String.concat sep ((a :: a2 :: r) ++ l2))
      with (a ++ sep ++ String.concat sep ((a2 :: r) ++ l2))%string.
    rewrite IH by discriminate.
    change (String.concat sep (a :: a2 :: r))
      with (a ++ sep ++ String.concat sep (a2 :: r))%string.
    now rewrite !string_app_assoc.
Qed.

(** X14.  The string vector of two ranges put together: for non-empty
    [data1] and [data2], the text of [data1 ++ data2] is the list of
    [data1], a comma, and the list of [data2], inside one pair of
    brackets. *)
Theorem generateStringVector_app (data1 data2 : list X)
  (generator : X -> string) :
  data1 <> [] -> data2 <> [] ->
  JsonVector.generateStringVector quoted (data1 ++ data2) generator
  = ("[" ++ String.concat "," (map (fun e => quoted (generator e)) data1)
         ++ ","
         ++ String.concat "," (map (fun e => quoted (generator e)) data2)
         ++ "]")%string.
Proof.
  intros N1 N2. rewrite generateStringVector_text, map_app.
  rewrite string_concat_app.
  - now rewrite !string_app_assoc.
  - destruct data1; [ congruence | discriminate ].
  - destruct data2; [ congruence | discriminate ].
Qed.

End JsonVectorFacts.

Lemma generateStringVector_app_witness :
  JsonVector.generateStringVector (fun s => ("'" ++ s ++ "'")%string)
    (["a"%string; "b"%string] ++ ["c"%string])%list (fun s => s)
  = "['a','b','c']"%string.
Proof.
  rewrite (generateStringVector_app string
             (fun s => ("'" ++ s ++ "'")%string)
             ["a"%string; "b"%string] ["c"%string] (fun s => s));
    [ reflexivity | discriminate | discriminate ].
Defined.

(** * The endpoint and the MATLAB getter *)

Section EndpointFacts.

Context {MF : Endpoints.MessageFederate}.

(** X15.  After [setTargetDestination(t)], each [send] overload without a
    destination hands the federate the call that the overload with the
    destination [t] hands it; the handle and the name of the endpoint are
    those it had. *)
Theorem send_goes_to_target (t : string) (e : Endpoints.Endpoint) :
  let e' := Endpoints.setTargetDestination t e in
  (forall data f,
     Endpoints.send data e' f = Endpoints.send_to t data e' f) /\
  (forall data time f,
     Endpoints.send_at data time e' f
     = Endpoints.send_to_at t data time e' f) /\
  (forall data size f,
     Endpoints.send_buffer data size e' f
     = Endpoints.send_to_buffer t data size e' f) /\
  (forall data size time f,
     Endpoints.send_buffer_at data size time e' f
     = Endpoints.send_to_buffer_at t data size time e' f) /\
  Endpoints.handle e' = Endpoints.handle e /\
  Endpoints.actualName e' = Endpoints.actualName e.
Proof. cbv zeta. repeat split. Qed.

End EndpointFacts.

Section MatlabFacts.

Variable helicsMEX : Z -> Z -> list (Z * Z) -> Matlab.mvalue.

Lemma call_times_cached (n : nat) (h : Matlab.host) :
  Matlab.isempty (Matlab.vInitialized h) = false ->
  Matlab.call_times helicsMEX n h = (repeat (Matlab.vInitialized h) n, h).
Proof.
  intros C. induction n as [ | n IH ]; [ reflexivity | ].
  cbn [Matlab.call_times]. unfold Matlab.HELICS_ERROR_SYSTEM_FAILURE.
  rewrite C, IH. reflexivity.
Qed.

(** X16.  The getter caches a non-empty answer: when the first
    [helicsMEX(0, 77)] returns a non-empty value [v], any number of calls
    all return [v] and [helicsMEX] is called once in total. *)
Theorem getter_calls_mex_once (n : nat) :
  Matlab.isempty (helicsMEX 0 77 []) = false ->
  Matlab.call_times helicsMEX (S n) Matlab.fresh_host
  = (repeat (helicsMEX 0 77 []) (S n),
     Matlab.mkHost (helicsMEX 0 77 []) [(0, 77)%Z]).
Proof.
  intros C. cbn [Matlab.call_times].
  unfold Matlab.HELICS_ERROR_SYSTEM_FAILURE at 1. cbn.
  rewrite call_times_cached by exact C. reflexivity.
Qed.

Lemma call_times_uncached (n : nat) :
  (forall log, Matlab.isempty (helicsMEX 0 77 log) = true) ->
  forall h : Matlab.host,
    Matlab.isempty (Matlab.vInitialized h) = true ->
    Matlab.mex_calls (snd (Matlab.call_times helicsMEX n h))
    = Matlab.mex_calls h ++ repeat (0, 77)%Z n.
Proof.
  intros E. induction n as [ | n IH ]; intros h C.
  - cbn. now rewrite app_nil_r.
  - cbn [Matlab.call_times]. unfold Matlab.HELICS_ERROR_SYSTEM_FAILURE.
    rewrite C.
    specialize (IH (Matlab.mkHost (helicsMEX 0 77 (Matlab.mex_calls h))
                      (Matlab.mex_calls h ++ [(0, 77)%Z])) (E _)).
    destruct (Matlab.call_times helicsMEX n _) as [vs h2].
    cbn [snd] in *. rewrite IH. cbn [Matlab.mex_calls repeat].
    now rewrite <- app_assoc.
Qed.

(** X17.  An empty answer is not cached: when [helicsMEX(0, 77)] keeps
    returning an empty array, [n] calls of the getter call it [n] times. *)
Theorem getter_retries_on_empty (n : nat) :
  (forall log, Matlab.isempty (helicsMEX 0 77 log) = true) ->
  Matlab.mex_calls (snd (Matlab.call_times helicsMEX n Matlab.fresh_host))
  = repeat (0, 77)%Z n.
Proof.
  intros E. now rewrite (call_times_uncached n E Matlab.fresh_host eq_refl).
Qed.

End MatlabFacts.

Lemma getter_calls_mex_once_witness :
  Matlab.call_times (fun _ b _ => [b]) 3 Matlab.fresh_host
  = ([[77%Z]; [77%Z]; [77%Z]], Matlab.mkHost [77%Z] [(0, 77)%Z]).
Proof.
  apply (getter_calls_mex_once (fun _ b _ => [b]) 2). reflexivity.
Defined.

Lemma getter_retries_on_empty_witness :
  Matlab.mex_calls
    (snd (Matlab.call_times (fun _ _ _ => []) 3 Matlab.fresh_host))
  = [(0, 77)%Z; (0, 77)%Z; (0, 77)%Z].
Proof.
  apply (getter_retries_on_empty (fun _ _ _ => []) 3). reflexivity.
Defined.
